(** * dictionary::Dictionary<Key, Value>

    A shallow embedding of [include/dictionary/dictionary.h]: the class
    [Dictionary] wraps one [std::unordered_map<Key, Value>] member, [data],
    and every method delegates to it.  The table is modelled by stdpp's
    [gmap]; the members of [std::unordered_map] the header calls are the
    [um_*] functions below, and [Module Dictionary] holds the methods of the
    class under their own names. *)

From Stdlib Require Import ZArith.
From stdpp Require Import gmap strings list fin_maps.

Local Open Scope Z_scope.
Local Open Scope nat_scope.

(** ** Value types *)

(** [Value()]: the value a mapped type is initialised with when
    [std::unordered_map::operator[]] creates an entry. *)
Class DefaultConstructible (V : Type) := value_init : V.

(** [int()] is [0], [std::string()] is the empty string. *)
#[export] Instance int_DefaultConstructible : DefaultConstructible Z := 0%Z.
#[export] Instance string_DefaultConstructible : DefaultConstructible string :=
  EmptyString.

(** ** Exceptions *)

Inductive exception : Type :=
  | out_of_range (what : string).

(** A call either returns or leaves by an exception. *)
Inductive outcome (A : Type) : Type :=
  | Returns (a : A)
  | Throws (e : exception).
Arguments Returns {A} a.
Arguments Throws {A} e.

(** ** The members of std::unordered_map used by the header *)

Section unordered_map.
Context {K : Type} `{Countable K}.
Context {V : Type} `{EqDecision V} `{DefaultConstructible V}.

(** A [Value&] into the table.  It is bound to the node of one key and
    stays valid while that node is in the table, so it is modelled by the
    key. *)
Record um_ref : Type := UmRef { ref_key : K }.

(** Reading through a reference. *)
Definition um_load (r : um_ref) (m : gmap K V) : option V :=
  m !! ref_key r.

(** [ref = value]: assignment through a reference; only the mapped value
    of an existing node changes. *)
Definition um_store (r : um_ref) (value : V) (m : gmap K V) : gmap K V :=
  alter (λ _, value) (ref_key r) m.

(** [m.find(key)]: [None] stands for [m.end()], [Some v] for an iterator
    whose [->second] is [v]. *)
Definition um_find (key : K) (m : gmap K V) : option V := m !! key.

(** [m.insert(pair)] of a container with unique keys: the pair is added
    only when no element with an equivalent key is there; the flag tells
    whether the insertion took place. *)
Definition um_insert (p : K * V) (m : gmap K V) : bool * gmap K V :=
  match m !! p.1 with
  | Some _ => (false, m)
  | None => (true, <[p.1 := p.2]> m)
  end.

(** [unordered_map(init)]: an empty container into which the elements of
    the initializer list are inserted, first to last, with [insert]; of
    several pairs with one key it is the first that stays. *)
Definition um_construct (init : list (K * V)) : gmap K V :=
  foldl (λ m p, (um_insert p m).2) ∅ init.

(** [m[key]]: a reference to the mapped value of [key]; when [key] is not
    in the table a value-initialised entry is created first. *)
Definition um_subscript (key : K) (m : gmap K V) : um_ref * gmap K V :=
  match m !! key with
  | Some _ => (UmRef key, m)
  | None => (UmRef key, <[key := value_init]> m)
  end.

(** [m.erase(key)]: returns the number of elements removed. *)
Definition um_erase (key : K) (m : gmap K V) : nat * gmap K V :=
  match m !! key with
  | Some _ => (1, delete key m)
  | None => (0, m)
  end.

(** [m.clear()]. *)
Definition um_clear (m : gmap K V) : gmap K V := ∅.

(** [m.size()]. *)
Definition um_size (m : gmap K V) : nat := size m.

(** The elements as an iteration [begin() .. end()] visits them.  The
    order is the table's business; here it is the order of
    [map_to_list]. *)
Definition um_iter (m : gmap K V) : list (K * V) := map_to_list m.

(** [m.empty()]: [begin() == end()]. *)
Definition um_empty (m : gmap K V) : bool :=
  match um_iter m with
  | [] => true
  | _ :: _ => false
  end.

(** [a == b]: same size, and every element of [a] is found in [b] under
    its key with an equal mapped value. *)
Definition um_eq (a b : gmap K V) : bool :=
  Nat.eqb (um_size a) (um_size b)
  && forallb
       (λ p, match um_find p.1 b with
             | Some w => bool_decide (p.2 = w)
             | None => false
             end)
       (um_iter a).
End unordered_map.

Arguments um_ref K : clear implicits.

(** ** The class *)

Module Dictionary.
Section Dictionary.
Context {K : Type} `{Countable K}.
Context {V : Type} `{EqDecision V} `{DefaultConstructible V}.

(** [std::unordered_map<Key, Value> data;] *)
Record t : Type := Build { data : gmap K V }.

(** [Dictionary() = default;] *)
Definition default_construct : t := Build ∅.

(** [Dictionary(std::initializer_list<...> init) : data(init) {}] *)
Definition construct (init : list (K * V)) : t :=
  Build (um_construct init).

(** [data[key] = value;]  The three overloads differ only in how the
    arguments are passed (copied or moved). *)
Definition insert (key : K) (value : V) (d : t) : t :=
  let '(slot, m) := um_subscript key (data d) in
  Build (um_store slot value m).

(** [get]: [it->second] when [find] succeeds, [std::nullopt] otherwise. *)
Definition get (key : K) (d : t) : option V :=
  match um_find key (data d) with
  | Some second => Some second
  | None => None
  end.

(** [return data.find(key) != data.end();] *)
Definition contains (key : K) (d : t) : bool :=
  match um_find key (data d) with
  | Some _ => true
  | None => false
  end.

(** [return data.erase(key) > 0;] *)
Definition remove (key : K) (d : t) : bool * t :=
  let '(n, m) := um_erase key (data d) in
  (Nat.ltb 0 n, Build m).

(** [data.clear();] *)
Definition clear (d : t) : t := Build (um_clear (data d)).

(** [return data.size();] *)
Definition size (d : t) : nat := um_size (data d).

(** [return data.empty();] *)
Definition empty (d : t) : bool := um_empty (data d).

(** [keys]: [push_back(pair.first)] for every pair of [data]. *)
Definition keys (d : t) : list K :=
  foldl (λ result pair, result ++ [pair.1]) [] (um_iter (data d)).

(** [values]: [push_back(pair.second)] for every pair of [data]. *)
Definition values (d : t) : list V :=
  foldl (λ result pair, result ++ [pair.2]) [] (um_iter (data d)).

(** [Value& operator[](const Key& key) { return data[key]; }] *)
Definition operator_subscript (key : K) (d : t) : um_ref K * t :=
  let '(slot, m) := um_subscript key (data d) in
  (slot, Build m).

(** Reading and writing through the reference [operator[]] returned. *)
Definition load (slot : um_ref K) (d : t) : option V :=
  um_load slot (data d).
Definition store (slot : um_ref K) (value : V) (d : t) : t :=
  Build (um_store slot value (data d)).

(** [const Value& operator[](const Key& key) const]: throws when [find]
    fails. *)
Definition operator_subscript_const (key : K) (d : t) : outcome V :=
  match um_find key (data d) with
  | Some second => Returns second
  | None => Throws (out_of_range "Key not found in dictionary")
  end.

(** [return data == other.data;] *)
Definition operator_eq (d other : t) : bool :=
  um_eq (data d) (data other).

(** [return !( *this == other);] *)
Definition operator_ne (d other : t) : bool :=
  negb (operator_eq d other).
End Dictionary.
Arguments t K {_ _} V.
End Dictionary.

(** ** Calls and histories *)

Section calls.
Context {K : Type} `{Countable K}.
Context {V : Type} `{EqDecision V} `{DefaultConstructible V}.

(** The two constructors of the class. *)
Inductive constructor : Type :=
  | Default_ctor
  | Init_list_ctor (init : list (K * V)).

Definition construct_with (c : constructor) : Dictionary.t K V :=
  match c with
  | Default_ctor => Dictionary.default_construct
  | Init_list_ctor init => Dictionary.construct init
  end.

(** A call of a public method.  [Subscript_assign key value] is the
    statement [dict[key] = value;]: the mutable [operator[]] followed by an
    assignment through the reference it returns. *)
Inductive method : Type :=
  | Insert (key : K) (value : V)
  | Get (key : K)
  | Contains (key : K)
  | Remove (key : K)
  | Clear
  | Size
  | Empty
  | Keys
  | Values
  | Subscript (key : K)
  | Subscript_assign (key : K) (value : V)
  | Subscript_const (key : K)
  | Equals (other : Dictionary.t K V)
  | Differs (other : Dictionary.t K V).

(** What a call hands back. *)
Inductive result : Type :=
  | Void
  | Bool (b : bool)
  | Optional (o : option V)
  | Count (n : nat)
  | Key_vector (l : list K)
  | Value_vector (l : list V)
  | Reference (slot : um_ref K)
  | Value (v : V).

(** One call on the object [d]: its outcome and the object afterwards.
    The [const] methods hand the object back as it was; so does a call
    that throws, since the only [throw] comes before any write. *)
Definition invoke (c : method) (d : Dictionary.t K V)
  : outcome result * Dictionary.t K V :=
  match c with
  | Insert key value => (Returns Void, Dictionary.insert key value d)
  | Get key => (Returns (Optional (Dictionary.get key d)), d)
  | Contains key => (Returns (Bool (Dictionary.contains key d)), d)
  | Remove key =>
      let '(b, d') := Dictionary.remove key d in (Returns (Bool b), d')
  | Clear => (Returns Void, Dictionary.clear d)
  | Size => (Returns (Count (Dictionary.size d)), d)
  | Empty => (Returns (Bool (Dictionary.empty d)), d)
  | Keys => (Returns (Key_vector (Dictionary.keys d)), d)
  | Values => (Returns (Value_vector (Dictionary.values d)), d)
  | Subscript key =>
      let '(slot, d') := Dictionary.operator_subscript key d in
      (Returns (Reference slot), d')
  | Subscript_assign key value =>
      let '(slot, d') := Dictionary.operator_subscript key d in
      (Returns Void, Dictionary.store slot value d')
  | Subscript_const key =>
      match Dictionary.operator_subscript_const key d with
      | Returns v => (Returns (Value v), d)
      | Throws e => (Throws e, d)
      end
  | Equals other => (Returns (Bool (Dictionary.operator_eq d other)), d)
  | Differs other => (Returns (Bool (Dictionary.operator_ne d other)), d)
  end.

(** Book-keeping over the life of one object: the keys ever inserted, the
    insertions that brought back a key inserted before and absent at the
    time of the call, the calls of [remove] that returned [true], and the
    associations thrown away by [clear]. *)
Record ledger : Type := Ledger {
  ever_inserted : gset K;
  reinsertions : nat;
  successful_removals : nat;
  dropped_by_clear : nat
}.

(** A key enters the object: by [insert], or by a mutable subscript that
    finds it absent. *)
Definition record_insertion (key : K) (d : Dictionary.t K V) (l : ledger)
  : ledger :=
  Ledger ({[ key ]} ∪ ever_inserted l)
         (if negb (Dictionary.contains key d)
             && bool_decide (key ∈ ever_inserted l)
          then S (reinsertions l) else reinsertions l)
         (successful_removals l)
         (dropped_by_clear l).

Definition record (c : method) (d : Dictionary.t K V) (l : ledger) : ledger :=
  match c with
  | Insert key _ => record_insertion key d l
  | Subscript key | Subscript_assign key _ =>
      if Dictionary.contains key d then l else record_insertion key d l
  | Remove key =>
      if (Dictionary.remove key d).1
      then Ledger (ever_inserted l) (reinsertions l)
                  (S (successful_removals l)) (dropped_by_clear l)
      else l
  | Clear =>
      Ledger (ever_inserted l) (reinsertions l) (successful_removals l)
             (dropped_by_clear l + Dictionary.size d)
  | _ => l
  end.

(** The ledger of a freshly constructed object. *)
Definition open_ledger (c : constructor) : ledger :=
  match c with
  | Default_ctor => Ledger ∅ 0 0 0
  | Init_list_ctor init => Ledger (list_to_set init.*1) 0 0 0
  end.

Definition step (s : Dictionary.t K V * ledger) (c : method)
  : Dictionary.t K V * ledger :=
  ((invoke c s.1).2, record c s.1 s.2).

(** The object and its ledger after a constructor and a sequence of
    calls. *)
Definition history (c : constructor) (calls : list method)
  : Dictionary.t K V * ledger :=
  foldl step (construct_with c, open_ledger c) calls.

(** What the ledger and the object agree on at every moment: the keys of
    the object have all been inserted, and the books balance. *)
Definition balanced (s : Dictionary.t K V * ledger) : Prop :=
  dom (Dictionary.data s.1) ⊆ ever_inserted s.2
  ∧ Dictionary.size s.1 + successful_removals s.2 + dropped_by_clear s.2 =
      size (ever_inserted s.2) + reinsertions s.2.

(** The first and the last value a sequence of pairs gives for a key. *)
Fixpoint first_binding (key : K) (init : list (K * V)) : option V :=
  match init with
  | [] => None
  | p :: rest =>
      if decide (p.1 = key) then Some p.2 else first_binding key rest
  end.

Definition last_binding (key : K) (init : list (K * V)) : option V :=
  first_binding key (reverse init).

(** The number of distinct keys of a sequence of pairs. *)
Definition distinct_keys (init : list (K * V)) : nat :=
  length (remove_dups init.*1).
End calls.

Arguments constructor : clear implicits.
Arguments method K {_ _} V.
Arguments result : clear implicits.
Arguments ledger K {_ _}.

(** * Properties *)

Section properties.
Context {K : Type} `{Countable K}.
Context {V : Type} `{EqDecision V} `{DefaultConstructible V}.
Implicit Types (d : Dictionary.t K V) (k : K) (v : V).

(** The table [insert] leaves behind is the old one with [k] bound to
    [v]. *)
Lemma data_insert k v d :
  Dictionary.data (Dictionary.insert k v d) = <[k := v]> (Dictionary.data d).
Proof.
  unfold Dictionary.insert, um_subscript, um_store.
  destruct (Dictionary.data d !! k) as [w|] eqn:Hk; simpl;
    apply map_eq; intros j; destruct (decide (k = j)) as [<-|Hne].
  - rewrite lookup_alter_eq, Hk, lookup_insert_eq. reflexivity.
  - rewrite lookup_alter_ne, lookup_insert_ne by done. reflexivity.
  - rewrite lookup_alter_eq, !lookup_insert_eq. reflexivity.
  - rewrite lookup_alter_ne, !lookup_insert_ne by done. reflexivity.
Qed.

Lemma get_lookup k d : Dictionary.get k d = Dictionary.data d !! k.
Proof. unfold Dictionary.get, um_find. by destruct (_ !! k). Qed.

Lemma contains_true k d :
  Dictionary.contains k d = true ↔ is_Some (Dictionary.data d !! k).
Proof.
  unfold Dictionary.contains, um_find. destruct (_ !! k); split;
    first [done | by eauto | by intros [? ?]].
Qed.

Lemma contains_false k d :
  Dictionary.contains k d = false ↔ Dictionary.data d !! k = None.
Proof.
  unfold Dictionary.contains, um_find. by destruct (_ !! k).
Qed.

(** [contains] is decided by [get]. *)
Lemma contains_get k d :
  Dictionary.contains k d = bool_decide (is_Some (Dictionary.get k d)).
Proof.
  rewrite get_lookup. unfold Dictionary.contains, um_find.
  destruct (_ !! k) as [w|]; symmetry.
  - apply bool_decide_eq_true. eauto.
  - apply bool_decide_eq_false. by intros [? ?].
Qed.

(** [remove] erases the key; on an absent key nothing is written. *)
Lemma data_remove k d :
  Dictionary.data (Dictionary.remove k d).2 = delete k (Dictionary.data d).
Proof.
  unfold Dictionary.remove, um_erase.
  destruct (Dictionary.data d !! k) eqn:Hk; simpl; [done|].
  by rewrite delete_id.
Qed.

Lemma remove_returns k d :
  (Dictionary.remove k d).1 = Dictionary.contains k d.
Proof.
  unfold Dictionary.remove, um_erase, Dictionary.contains, um_find.
  by destruct (Dictionary.data d !! k).
Qed.

(** The mutable subscript hands out the slot of its key, after creating
    the entry when it was missing. *)
Lemma operator_subscript_slot k d :
  (Dictionary.operator_subscript k d).1 = UmRef k.
Proof.
  unfold Dictionary.operator_subscript, um_subscript.
  by destruct (Dictionary.data d !! k).
Qed.

Lemma data_operator_subscript k d :
  Dictionary.data (Dictionary.operator_subscript k d).2 =
    match Dictionary.data d !! k with
    | Some _ => Dictionary.data d
    | None => <[k := value_init]> (Dictionary.data d)
    end.
Proof.
  unfold Dictionary.operator_subscript, um_subscript.
  by destruct (Dictionary.data d !! k).
Qed.

(** An object is its table. *)
Lemma data_inj d d' : Dictionary.data d = Dictionary.data d' → d = d'.
Proof. destruct d, d'; simpl; by intros ->. Qed.

(** The loops of [keys] and [values] push one element per pair, in
    iteration order. *)
Lemma push_back_loop {A B} (f : A → B) (l : list A) (acc : list B) :
  foldl (λ result x, result ++ [f x]) acc l = acc ++ (f <$> l).
Proof.
  revert acc. induction l as [|x l IH]; intros acc; simpl.
  - by rewrite app_nil_r.
  - by rewrite IH, <-app_assoc.
Qed.

Lemma keys_iter d : Dictionary.keys d = (map_to_list (Dictionary.data d)).*1.
Proof. unfold Dictionary.keys, um_iter. by rewrite push_back_loop. Qed.

Lemma values_iter d :
  Dictionary.values d = (map_to_list (Dictionary.data d)).*2.
Proof. unfold Dictionary.values, um_iter. by rewrite push_back_loop. Qed.

(** ** insert *)

(** C1: after [insert(k, v)], [contains(k)] is true and [get(k)] is [v];
    the size grows by one when [k] was absent before the call and stays
    the same when [k] was present. *)
Theorem C1_insert_then_get k v d :
  Dictionary.contains k (Dictionary.insert k v d) = true
  ∧ Dictionary.get k (Dictionary.insert k v d) = Some v
  ∧ Dictionary.size (Dictionary.insert k v d) =
      (if Dictionary.contains k d
       then Dictionary.size d
       else S (Dictionary.size d)).
Proof.
  split_and!.
  - apply contains_true. rewrite data_insert, lookup_insert_eq. eauto.
  - by rewrite get_lookup, data_insert, lookup_insert_eq.
  - unfold Dictionary.size, um_size, Dictionary.contains, um_find.
    rewrite data_insert, map_size_insert.
    by destruct (Dictionary.data d !! k).
Qed.

(** ** Failure *)

(** C2: the read-only subscript throws exactly when the key is absent, the
    exception is [out_of_range], and the object is the same afterwards;
    [get] and the mutable subscript always return. *)
Theorem C2_only_const_subscript_throws k d :
  ((∃ e, (invoke (Subscript_const k) d).1 = Throws e)
     ↔ Dictionary.contains k d = false)
  ∧ (∀ e, (invoke (Subscript_const k) d).1 = Throws e
          → e = out_of_range "Key not found in dictionary")
  ∧ (invoke (Subscript_const k) d).2 = d
  ∧ Dictionary.operator_subscript_const k d =
      match Dictionary.get k d with
      | Some v => Returns v
      | None => Throws (out_of_range "Key not found in dictionary")
      end
  ∧ (∃ o, invoke (Get k) d = (Returns (Optional o), d))
  ∧ (∃ slot d', invoke (Subscript k) d = (Returns (Reference slot), d')).
Proof.
  split_and!.
  - rewrite contains_false. simpl.
    unfold Dictionary.operator_subscript_const, um_find.
    destruct (Dictionary.data d !! k); simpl; split;
      first [done | by intros [? ?] | by eauto].
  - intros e. simpl. unfold Dictionary.operator_subscript_const.
    destruct (um_find k _); simpl; [done | by intros [= <-]].
  - simpl. by destruct (Dictionary.operator_subscript_const k d).
  - rewrite get_lookup. unfold Dictionary.operator_subscript_const, um_find.
    by destruct (_ !! k).
  - simpl. eauto.
  - simpl. destruct (Dictionary.operator_subscript k d). eauto.
Qed.

(** ** Mutable subscript *)

(** C4: on an absent key the mutable subscript creates the entry with a
    value-initialised value, the size grows by one, the reference it
    returns is bound to that key and reads that value, and the key is
    contained afterwards. *)
Theorem C4_subscript_creates_default k d :
  Dictionary.contains k d = false →
  let '(slot, d') := Dictionary.operator_subscript k d in
  ref_key slot = k
  ∧ Dictionary.load slot d' = Some value_init
  ∧ Dictionary.get k d' = Some value_init
  ∧ Dictionary.size d' = S (Dictionary.size d)
  ∧ Dictionary.contains k d' = true.
Proof.
  intros Hk%contains_false.
  pose proof (operator_subscript_slot k d) as Hslot.
  pose proof (data_operator_subscript k d) as Hdata.
  destruct (Dictionary.operator_subscript k d) as [slot d']; simpl in *.
  rewrite Hk in Hdata. subst slot. split_and!.
  - done.
  - unfold Dictionary.load, um_load; simpl.
    by rewrite Hdata, lookup_insert_eq.
  - by rewrite get_lookup, Hdata, lookup_insert_eq.
  - unfold Dictionary.size, um_size.
    by rewrite Hdata, map_size_insert_None.
  - apply contains_true. rewrite Hdata, lookup_insert_eq. eauto.
Qed.

(** ** remove *)

(** C6: [remove] of a present key returns [true], the key is no longer
    contained and the size has gone down by one; [remove] of an absent
    key returns [false] and the object is what it was. *)
Theorem C6_remove k d :
  let '(removed, d') := Dictionary.remove k d in
  (Dictionary.contains k d = true →
     removed = true
     ∧ Dictionary.contains k d' = false
     ∧ Dictionary.get k d' = None
     ∧ Dictionary.size d = S (Dictionary.size d'))
  ∧ (Dictionary.contains k d = false →
       removed = false ∧ d' = d ∧ Dictionary.size d' = Dictionary.size d).
Proof.
  pose proof (remove_returns k d) as Hret.
  pose proof (data_remove k d) as Hdata.
  destruct (Dictionary.remove k d) as [removed d']; simpl in *.
  split.
  - intros Hk. split_and!.
    + congruence.
    + apply contains_false. by rewrite Hdata, lookup_delete_eq.
    + by rewrite get_lookup, Hdata, lookup_delete_eq.
    + apply contains_true in Hk as [w Hw].
      unfold Dictionary.size, um_size. rewrite Hdata.
      rewrite map_size_delete, Hw. simpl.
      assert (size (Dictionary.data d) ≠ 0)
        by (apply map_size_ne_0_lookup_2 with k; eauto).
      lia.
  - intros Hk. assert (d' = d) as ->.
    { apply data_inj. rewrite Hdata. apply delete_id.
      by apply contains_false. }
    split_and!; [congruence | done | done].
Qed.

(** ** clear and empty *)

Lemma empty_size d : Dictionary.empty d = true ↔ Dictionary.size d = 0.
Proof.
  unfold Dictionary.empty, um_empty, um_iter, Dictionary.size, um_size.
  rewrite <-length_map_to_list.
  by destruct (map_to_list (Dictionary.data d)).
Qed.

(** C8: after [clear()] no association is left, [empty()] is true and
    [size()] is 0; and [empty()] is true exactly when [size()] is 0. *)
Theorem C8_clear_then_empty d :
  Dictionary.empty (Dictionary.clear d) = true
  ∧ Dictionary.size (Dictionary.clear d) = 0
  ∧ (∀ k, Dictionary.get k (Dictionary.clear d) = None)
  ∧ (Dictionary.empty d = true ↔ Dictionary.size d = 0).
Proof.
  assert (Dictionary.size (Dictionary.clear d) = 0) as Hsize
    by apply map_size_empty.
  split_and!.
  - by apply empty_size.
  - done.
  - intros k. rewrite get_lookup. apply lookup_empty.
  - apply empty_size.
Qed.

(** ** keys and values *)

(** C9: [keys()] and [values()] are as long as [size()], and every key of
    [keys()] is contained. *)
Theorem C9_keys_values_length d :
  length (Dictionary.keys d) = Dictionary.size d
  ∧ length (Dictionary.values d) = Dictionary.size d
  ∧ (∀ k, k ∈ Dictionary.keys d → Dictionary.contains k d = true).
Proof.
  rewrite keys_iter, values_iter. unfold Dictionary.size, um_size.
  rewrite !length_fmap, length_map_to_list. split_and!; [done..|].
  intros k [[k' w] [-> Hkw]]%list_elem_of_fmap.
  apply elem_of_map_to_list in Hkw. apply contains_true. eauto.
Qed.

(** ** Other keys *)

(** C10: [insert], [remove], the mutable subscript and an assignment
    through its reference, all on [k], leave [get] and [contains] of
    every other key as they were. *)
Theorem C10_other_keys_untouched k k' v d :
  k ≠ k' →
  (Dictionary.get k' (Dictionary.insert k v d) = Dictionary.get k' d
   ∧ Dictionary.contains k' (Dictionary.insert k v d) =
       Dictionary.contains k' d)
  ∧ (Dictionary.get k' (Dictionary.remove k d).2 = Dictionary.get k' d
     ∧ Dictionary.contains k' (Dictionary.remove k d).2 =
         Dictionary.contains k' d)
  ∧ (Dictionary.get k' (Dictionary.operator_subscript k d).2 =
       Dictionary.get k' d
     ∧ Dictionary.contains k' (Dictionary.operator_subscript k d).2 =
         Dictionary.contains k' d)
  ∧ (let '(slot, d') := Dictionary.operator_subscript k d in
     Dictionary.get k' (Dictionary.store slot v d') = Dictionary.get k' d
     ∧ Dictionary.contains k' (Dictionary.store slot v d') =
         Dictionary.contains k' d).
Proof.
  intros Hne.
  assert (Dictionary.data (Dictionary.operator_subscript k d).2 !! k' =
            Dictionary.data d !! k') as Hsub.
  { rewrite data_operator_subscript.
    destruct (Dictionary.data d !! k); [done|]. by rewrite lookup_insert_ne. }
  rewrite !contains_get, !get_lookup, data_insert, data_remove, Hsub.
  rewrite lookup_insert_ne, lookup_delete_ne by done.
  split_and!; try done.
  pose proof (operator_subscript_slot k d) as Hslot.
  destruct (Dictionary.operator_subscript k d) as [slot d']; simpl in *.
  subst slot. rewrite !contains_get, !get_lookup; simpl.
  unfold um_store; simpl. by rewrite lookup_alter_ne, Hsub.
Qed.

(** ** Equality *)

(** The comparison of two tables succeeds exactly when the first has the
    size of the second and is included in it. *)
Lemma um_eq_true (a b : gmap K V) :
  um_eq a b = true ↔
    um_size a = um_size b ∧ ∀ k v, a !! k = Some v → b !! k = Some v.
Proof.
  unfold um_eq, um_iter, um_find.
  rewrite andb_true_iff, Nat.eqb_eq, forallb_forall.
  apply and_iff_compat_l. split.
  - intros Hall k v Hkv.
    specialize (Hall (k, v)). simpl in Hall.
    destruct (b !! k) as [w|].
    + apply bool_decide_eq_true in Hall; [by subst|].
      by apply list_elem_of_In, elem_of_map_to_list.
    + discriminate Hall. by apply list_elem_of_In, elem_of_map_to_list.
  - intros Hsub [k v] Hin%list_elem_of_In%elem_of_map_to_list. simpl.
    rewrite (Hsub k v Hin). by apply bool_decide_eq_true.
Qed.

Lemma um_eq_leibniz (a b : gmap K V) : um_eq a b = true ↔ a = b.
Proof.
  rewrite um_eq_true. unfold um_size. split.
  - intros [Hsize Hsub]. apply map_subseteq_size_eq.
    + by apply map_subseteq_spec.
    + by rewrite Hsize.
  - by intros ->.
Qed.

Lemma operator_eq_leibniz (d1 d2 : Dictionary.t K V) :
  Dictionary.operator_eq d1 d2 = true ↔ d1 = d2.
Proof.
  unfold Dictionary.operator_eq. rewrite um_eq_leibniz. split.
  - apply data_inj.
  - by intros ->.
Qed.

(** C5: two dictionaries compare equal exactly when they have the same
    size and every key of the first maps to the same value in the second,
    which is to say exactly when they hold the same pairs; the order of
    insertion is immaterial; equality is reflexive and symmetric, and
    [!=] is its negation. *)
Theorem C5_equality_same_pairs (d1 d2 : Dictionary.t K V) :
  (Dictionary.operator_eq d1 d2 = true ↔
     Dictionary.size d1 = Dictionary.size d2
     ∧ ∀ k v, Dictionary.get k d1 = Some v → Dictionary.get k d2 = Some v)
  ∧ (Dictionary.operator_eq d1 d2 = true ↔
       ∀ k, Dictionary.get k d1 = Dictionary.get k d2)
  ∧ (∀ k1 v1 k2 v2, k1 ≠ k2 →
       Dictionary.operator_eq
         (Dictionary.insert k1 v1 (Dictionary.insert k2 v2 d1))
         (Dictionary.insert k2 v2 (Dictionary.insert k1 v1 d1)) = true)
  ∧ Dictionary.operator_eq d1 d1 = true
  ∧ Dictionary.operator_eq d1 d2 = Dictionary.operator_eq d2 d1
  ∧ Dictionary.operator_ne d1 d2 = negb (Dictionary.operator_eq d1 d2).
Proof.
  split_and!.
  - unfold Dictionary.operator_eq, Dictionary.size.
    rewrite um_eq_true. apply and_iff_compat_l.
    split; intros Hsub k v; specialize (Hsub k v);
      by rewrite ?get_lookup in *.
  - rewrite operator_eq_leibniz. split; [by intros ->|].
    intros Hget. apply data_inj, map_eq. intros k.
    by rewrite <-!get_lookup.
  - intros k1 v1 k2 v2 Hne. apply operator_eq_leibniz, data_inj.
    rewrite !data_insert. by apply insert_insert_ne.
  - by apply operator_eq_leibniz.
  - destruct (Dictionary.operator_eq d1 d2) eqn:H12;
      destruct (Dictionary.operator_eq d2 d1) eqn:H21; try done.
    + apply operator_eq_leibniz in H12 as ->.
      by rewrite (proj2 (operator_eq_leibniz d2 d2)) in H21.
    + apply operator_eq_leibniz in H21 as ->.
      by rewrite (proj2 (operator_eq_leibniz d1 d1)) in H12.
  - done.
Qed.

(** ** Construction from a sequence of pairs *)

(** Inserting a sequence into a table keeps what the table had and adds,
    for a new key, the first pair of the sequence under that key. *)
Lemma um_insert_all_lookup (init : list (K * V)) (m : gmap K V) k :
  foldl (λ m p, (um_insert p m).2) m init !! k =
    match m !! k with
    | Some w => Some w
    | None => first_binding k init
    end.
Proof.
  revert m. induction init as [|[k0 v0] init IH]; intros m; simpl.
  - by destruct (m !! k).
  - rewrite IH. unfold um_insert; simpl.
    destruct (decide (k0 = k)) as [->|Hne].
    + destruct (m !! k) as [w|] eqn:Hk; simpl.
      * by rewrite Hk.
      * by rewrite lookup_insert_eq.
    + destruct (m !! k0); simpl; [done|].
      by rewrite lookup_insert_ne.
Qed.

Lemma um_insert_all_dom (init : list (K * V)) (m : gmap K V) :
  dom (foldl (λ m p, (um_insert p m).2) m init) =
    dom m ∪ list_to_set init.*1.
Proof.
  revert m. induction init as [|[k0 v0] init IH]; intros m; simpl.
  - set_solver.
  - rewrite IH. unfold um_insert; simpl.
    destruct (m !! k0) as [w|] eqn:Hk0; simpl.
    + assert (k0 ∈ dom m) by (apply elem_of_dom; eauto). set_solver.
    + rewrite dom_insert_L. set_solver.
Qed.

Lemma um_construct_dom (init : list (K * V)) :
  dom (um_construct init) = list_to_set init.*1.
Proof.
  unfold um_construct. rewrite um_insert_all_dom, dom_empty_L. set_solver.
Qed.

Lemma size_list_to_gset (l : list K) :
  size (list_to_set l : gset K) = length (remove_dups l).
Proof.
  rewrite <-(size_list_to_set (C:=gset K)) by apply NoDup_remove_dups.
  f_equal. apply set_eq. intros x.
  by rewrite !elem_of_list_to_set, elem_of_remove_dups.
Qed.

(** C3, as the code has it: a dictionary constructed from a sequence of
    pairs maps every key to the value of the FIRST pair with that key, and
    its size is the number of distinct keys of the sequence. *)
Theorem C3_construct_first_pair_wins (init : list (K * V)) :
  (∀ k, Dictionary.get k (Dictionary.construct init) =
          first_binding k init)
  ∧ Dictionary.size (Dictionary.construct init) = distinct_keys init.
Proof.
  split.
  - intros k. rewrite get_lookup; simpl. unfold um_construct.
    by rewrite um_insert_all_lookup, lookup_empty.
  - unfold Dictionary.size, um_size, distinct_keys; simpl.
    by rewrite <-size_dom, um_construct_dom, size_list_to_gset.
Qed.

(** ** The size over a history *)

Lemma size_dom_data d : Dictionary.size d = size (dom (Dictionary.data d)).
Proof. unfold Dictionary.size, um_size. by rewrite size_dom. Qed.

Lemma size_add_key k (X : gset K) :
  size ({[ k ]} ∪ X) = if bool_decide (k ∈ X) then size X else S (size X).
Proof.
  case_bool_decide as Hk.
  - f_equal. set_solver.
  - rewrite size_union by set_solver. by rewrite size_singleton.
Qed.

Lemma balanced_construct (c : constructor K V) :
  balanced (construct_with c, open_ledger c).
Proof.
  destruct c as [|init]; unfold balanced; simpl.
  - rewrite size_dom_data; simpl. by rewrite dom_empty_L.
  - rewrite size_dom_data; simpl. by rewrite um_construct_dom.
Qed.

(** A call that writes [<[k := w]>] into the table and books it as an
    insertion of [k]. *)
Lemma balanced_insertion k w d (l : ledger K) :
  balanced (d, l) →
  balanced (Dictionary.Build (<[k := w]> (Dictionary.data d)),
            record_insertion k d l).
Proof.
  unfold balanced; simpl. rewrite !size_dom_data; simpl.
  intros [Hdom Hbal]. rewrite dom_insert_L, !size_add_key.
  split; [set_solver|].
  unfold Dictionary.contains, um_find.
  destruct (Dictionary.data d !! k) as [w'|] eqn:Hk; simpl.
  - assert (k ∈ dom (Dictionary.data d)) by (apply elem_of_dom; eauto).
    rewrite !bool_decide_eq_true_2 by set_solver. done.
  - apply not_elem_of_dom in Hk.
    rewrite (bool_decide_eq_false_2 (k ∈ dom _)) by done.
    case_bool_decide; lia.
Qed.

Lemma balanced_same_dom d d' (l : ledger K) :
  dom (Dictionary.data d') = dom (Dictionary.data d) →
  balanced (d, l) → balanced (d', l).
Proof.
  unfold balanced; simpl. rewrite !size_dom_data. by intros ->.
Qed.

(** Every call keeps the books balanced. *)
Lemma balanced_step (s : Dictionary.t K V * ledger K) (c : method K V) :
  balanced s → balanced (step s c).
Proof.
  destruct s as [d l]. intros Hs. unfold step; simpl.
  destruct c as [k v|k|k|k| | | | | |k|k v|k|other|other]; simpl;
    try exact Hs.
  - (* insert *)
    pose proof (balanced_insertion k v d l Hs) as Hins.
    eapply balanced_same_dom, Hins. by rewrite data_insert.
  - (* remove *)
    pose proof (remove_returns k d) as Hret.
    pose proof (data_remove k d) as Hdata.
    destruct (Dictionary.remove k d) as [removed d']; simpl in *.
    subst removed. destruct Hs as [Hdom Hbal]; simpl in *.
    destruct (Dictionary.contains k d) eqn:Hk; unfold balanced; simpl.
    + apply contains_true, elem_of_dom in Hk.
      rewrite size_dom_data in *. rewrite Hdata, dom_delete_L.
      split; [set_solver|].
      assert (size (dom (Dictionary.data d)) =
                S (size (dom (Dictionary.data d) ∖ {[k]}))) as Hsz.
      { assert (dom (Dictionary.data d) =
                  {[k]} ∪ (dom (Dictionary.data d) ∖ {[k]})) as Heq.
        { apply set_eq. intros x.
          rewrite elem_of_union, elem_of_difference, elem_of_singleton.
          destruct (decide (x = k)) as [->|]; naive_solver. }
        rewrite Heq at 1. rewrite size_union by set_solver.
        by rewrite size_singleton. }
      lia.
    + apply contains_false in Hk.
      rewrite size_dom_data in *. by rewrite Hdata, delete_id.
  - (* clear *)
    destruct Hs as [Hdom Hbal]; simpl in *. unfold balanced; simpl.
    rewrite !size_dom_data in *; simpl. unfold um_clear.
    rewrite dom_empty_L, size_empty. split; [set_solver | lia].
  - (* mutable subscript *)
    pose proof (data_operator_subscript k d) as Hdata.
    destruct (Dictionary.operator_subscript k d) as [slot d']; simpl in *.
    destruct (Dictionary.contains k d) eqn:Hk.
    + apply contains_true in Hk as [w Hw]. rewrite Hw in Hdata.
      eapply balanced_same_dom, Hs. by rewrite Hdata.
    + apply contains_false in Hk. rewrite Hk in Hdata.
      eapply balanced_same_dom, (balanced_insertion k value_init d l Hs).
      by rewrite Hdata.
  - (* assignment through the mutable subscript *)
    pose proof (data_operator_subscript k d) as Hdata.
    destruct (Dictionary.operator_subscript k d) as [slot d']; simpl in *.
    destruct (Dictionary.contains k d) eqn:Hk.
    + apply contains_true in Hk as [w Hw]. rewrite Hw in Hdata.
      eapply balanced_same_dom, Hs. simpl. unfold um_store.
      by rewrite dom_alter_L, Hdata.
    + apply contains_false in Hk. rewrite Hk in Hdata.
      eapply balanced_same_dom, (balanced_insertion k value_init d l Hs).
      simpl. unfold um_store. by rewrite dom_alter_L, Hdata.
  - (* read-only subscript *)
    by destruct (Dictionary.operator_subscript_const k d).
Qed.

Lemma balanced_history (c : constructor K V) (calls : list (method K V)) :
  balanced (history c calls).
Proof.
  unfold history. generalize (balanced_construct c).
  generalize (construct_with c, open_ledger c).
  induction calls as [|call calls IH]; intros s Hs; simpl; [done|].
  by apply IH, balanced_step.
Qed.

(** C7, as the code has it: after any constructor and any sequence of
    calls, [size()] is the count of distinct keys ever inserted, plus the
    insertions that brought back a key inserted before and absent at the
    time, minus the successful removals and minus the associations thrown
    away by [clear()].  Where no key came back and [clear()] dropped
    nothing, that is the count of distinct keys ever inserted minus the
    count of successful removals. *)
Theorem C7_size_over_history (c : constructor K V) (calls : list (method K V)) :
  let '(d, l) := history c calls in
  Dictionary.size d + successful_removals l + dropped_by_clear l =
    size (ever_inserted l) + reinsertions l
  ∧ (reinsertions l = 0 → dropped_by_clear l = 0 →
     Dictionary.size d = size (ever_inserted l) - successful_removals l).
Proof.
  pose proof (balanced_history c calls) as [_ Hbal].
  destruct (history c calls) as [d l]; simpl in *.
  split; [done | lia].
Qed.
End properties.

(** * The properties on the objects of the test suite

    [Dictionary<std::string, int>], with [int] values read as integers. *)

Section test_suite.
Local Notation dict := (Dictionary.t string Z).
Local Notation empty_dict := (Dictionary.default_construct : dict).

(** "Dictionary - 基本操作", call by call. *)
Example test_basic_operations :
  let d1 :=
    Dictionary.insert "three" 3%Z
      (Dictionary.insert "two" 2%Z (Dictionary.insert "one" 1%Z empty_dict)) in
  let d2 := (invoke (Subscript_assign "four" 4%Z) d1).2 in
  let d3 := (Dictionary.remove "one" d2).2 in
  Dictionary.empty empty_dict = true
  ∧ Dictionary.size d1 = 3
  ∧ Dictionary.empty d1 = false
  ∧ Dictionary.contains "two" d1 = true
  ∧ Dictionary.contains "four" d1 = false
  ∧ Dictionary.get "one" d1 = Some 1%Z
  ∧ Dictionary.get "four" d1 = None
  ∧ Dictionary.get "four" d2 = Some 4%Z
  ∧ Dictionary.size d2 = 4
  ∧ (Dictionary.remove "one" d2).1 = true
  ∧ Dictionary.contains "one" d3 = false
  ∧ Dictionary.size d3 = 3
  ∧ (Dictionary.remove "nonexistent" d3).1 = false
  ∧ Dictionary.empty (Dictionary.clear d3) = true
  ∧ Dictionary.size (Dictionary.clear d3) = 0.
Proof. by vm_compute. Qed.

(** "Dictionary - 更新值": inserting an existing key again. *)
Example test_update_value :
  let d :=
    Dictionary.insert "key" 2%Z (Dictionary.insert "key" 1%Z empty_dict) in
  Dictionary.get "key" d = Some 2%Z ∧ Dictionary.size d = 1.
Proof. by vm_compute. Qed.

(** "Dictionary - 初始化列表". *)
Example test_initializer_list :
  let d : dict := Dictionary.construct [("a", 1%Z); ("b", 2%Z); ("c", 3%Z)] in
  Dictionary.size d = 3 ∧ Dictionary.get "b" d = Some 2%Z.
Proof. by vm_compute. Qed.

(** Reading ["z"] from [{"a": 1}] through the read-only subscript. *)
Example test_const_subscript_absent :
  invoke (Subscript_const "z") (Dictionary.construct [("a", 1%Z)] : dict) =
    (Throws (out_of_range "Key not found in dictionary"),
     Dictionary.construct [("a", 1%Z)]).
Proof. by vm_compute. Qed.

Lemma C2_only_const_subscript_throws_witness :
  let d : dict := Dictionary.construct [("a", 1%Z)] in
  (invoke (Subscript_const "z") d).1 =
    Throws (out_of_range "Key not found in dictionary")
  ∧ (invoke (Subscript_const "z") d).2 = d
  ∧ Dictionary.contains "z" d = false.
Proof.
  intros d.
  destruct (C2_only_const_subscript_throws "z" d)
    as (Hiff & Hwhat & Hsame & _).
  assert (Dictionary.contains "z" d = false) as Habsent by reflexivity.
  destruct (proj2 Hiff Habsent) as [e He].
  split_and!; [|exact Hsame|exact Habsent].
  rewrite He. f_equal. exact (Hwhat e He).
Defined.

(** The last pair of the sequence does not win. *)
Lemma C3_last_pair_does_not_win :
  let init := [("a", 1%Z); ("a", 2%Z)] in
  last_binding "a" init = Some 2%Z
  ∧ Dictionary.get "a" (Dictionary.construct init) = Some 1%Z
  ∧ Dictionary.get "a" (Dictionary.construct init) ≠ last_binding "a" init.
Proof. vm_compute. split_and!; [done | done | by intros [=]]. Qed.

(** Subscripting a fresh key of an empty integer-valued dictionary. *)
Lemma C4_subscript_creates_default_witness :
  Dictionary.contains "x" empty_dict = false
  ∧ ∃ slot d',
      Dictionary.operator_subscript "x" empty_dict = (slot, d')
      ∧ Dictionary.load slot d' = Some 0%Z
      ∧ Dictionary.size d' = 1
      ∧ Dictionary.contains "x" d' = true.
Proof.
  split; [reflexivity|].
  pose proof (C4_subscript_creates_default "x" empty_dict eq_refl) as Hnew.
  destruct (Dictionary.operator_subscript "x" empty_dict) as [slot d'].
  destruct Hnew as (_ & Hload & _ & Hsize & Hcontains).
  exists slot, d'. split_and!; [reflexivity | exact Hload | exact Hsize
                               | exact Hcontains].
Defined.

(** "Dictionary - 相等性比较", and [{a:1, b:2}] against [{b:2, a:1}]. *)
Lemma C5_equality_same_pairs_witness :
  "a" ≠ "b"
  ∧ Dictionary.operator_eq
      (Dictionary.insert "a" 1%Z (Dictionary.insert "b" 2%Z empty_dict))
      (Dictionary.insert "b" 2%Z (Dictionary.insert "a" 1%Z empty_dict))
    = true.
Proof.
  assert ("a" ≠ "b") as Hne by (intros [=]).
  split; [exact Hne|].
  destruct (C5_equality_same_pairs empty_dict empty_dict)
    as (_ & _ & Horder & _).
  exact (Horder "a" 1%Z "b" 2%Z Hne).
Defined.

(** "Dictionary - 基本操作": removing a present and an absent key. *)
Lemma C6_remove_witness :
  let d : dict := Dictionary.construct [("one", 1%Z); ("two", 2%Z)] in
  Dictionary.contains "one" d = true
  ∧ (Dictionary.remove "one" d).1 = true
  ∧ Dictionary.contains "one" (Dictionary.remove "one" d).2 = false
  ∧ Dictionary.size d = S (Dictionary.size (Dictionary.remove "one" d).2).
Proof.
  intros d. pose proof (C6_remove "one" d) as Hrm.
  destruct (Dictionary.remove "one" d) as [removed d']; simpl.
  destruct Hrm as [Hpresent _].
  destruct (Hpresent eq_refl) as (Hret & Hgone & _ & Hsize).
  split_and!; [reflexivity | exact Hret | exact Hgone | exact Hsize].
Defined.

(** Inserting, removing and inserting the same key again: one distinct
    key, one successful removal, and a size of one. *)
Lemma C7_size_is_not_distinct_minus_removed :
  let '(d, l) :=
    history (Default_ctor : constructor string Z)
            [Insert "a" 1%Z; Remove "a"; Insert "a" 2%Z] in
  Dictionary.size d = 1
  ∧ size (ever_inserted l) = 1
  ∧ successful_removals l = 1
  ∧ Dictionary.size d ≠ size (ever_inserted l) - successful_removals l.
Proof. vm_compute. split_and!; [done | done | done | by intros [=]]. Qed.

(** "Dictionary - 基本操作" up to the removal of ["one"]. *)
Lemma C7_size_over_history_witness :
  let '(d, l) :=
    history (Default_ctor : constructor string Z)
            [Insert "one" 1%Z; Insert "two" 2%Z; Insert "three" 3%Z;
             Subscript_assign "four" 4%Z; Remove "one";
             Remove "nonexistent"] in
  reinsertions l = 0 ∧ dropped_by_clear l = 0
  ∧ Dictionary.size d = 3
  ∧ Dictionary.size d = size (ever_inserted l) - successful_removals l.
Proof.
  pose proof
    (C7_size_over_history (Default_ctor : constructor string Z)
       [Insert "one" 1%Z; Insert "two" 2%Z; Insert "three" 3%Z;
        Subscript_assign "four" 4%Z; Remove "one";
        Remove "nonexistent"]) as Hsize.
  destruct (history _ _) as [d l] eqn:Hrun.
  destruct Hsize as [_ Hsize].
  assert (reinsertions l = 0) as Hre
    by (apply (f_equal snd) in Hrun; simpl in Hrun; subst l; by vm_compute).
  assert (dropped_by_clear l = 0) as Hdrop
    by (apply (f_equal snd) in Hrun; simpl in Hrun; subst l; by vm_compute).
  assert (Dictionary.size d = 3) as Hthree
    by (apply (f_equal fst) in Hrun; simpl in Hrun; subst d; by vm_compute).
  exact (conj Hre (conj Hdrop (conj Hthree (Hsize Hre Hdrop)))).
Defined.

(** "Dictionary - 键和值列表": the keys of a dictionary are contained in
    it. *)
Lemma C9_keys_values_length_witness :
  let d : dict := Dictionary.construct [("a", 1%Z); ("b", 2%Z); ("c", 3%Z)] in
  "b" ∈ Dictionary.keys d
  ∧ Dictionary.contains "b" d = true
  ∧ length (Dictionary.keys d) = 3
  ∧ length (Dictionary.values d) = 3.
Proof.
  intros d.
  destruct (C9_keys_values_length d) as (Hkeys & Hvalues & Hin).
  assert ("b" ∈ Dictionary.keys d) as Hb
    by (vm_compute; apply list_elem_of_In; simpl; tauto).
  split_and!; [exact Hb | exact (Hin "b" Hb) | exact Hkeys | exact Hvalues].
Defined.

Lemma C10_other_keys_untouched_witness :
  let d : dict := Dictionary.construct [("a", 1%Z); ("b", 2%Z)] in
  "a" ≠ "b"
  ∧ Dictionary.get "b" (Dictionary.insert "a" 7%Z d) = Some 2%Z
  ∧ Dictionary.get "b" (Dictionary.remove "a" d).2 = Some 2%Z
  ∧ Dictionary.get "b" (Dictionary.operator_subscript "a" d).2 = Some 2%Z.
Proof.
  intros d. assert ("a" ≠ "b") as Hne by (intros [=]).
  destruct (C10_other_keys_untouched "a" "b" 7%Z d Hne)
    as ((Hins & _) & (Hrem & _) & (Hsub & _) & _).
  split_and!; [exact Hne | by rewrite Hins | by rewrite Hrem
               | by rewrite Hsub].
Defined.
End test_suite.

(** * Further properties of the methods *)

Section more_properties.
Context {K : Type} `{Countable K}.
Context {V : Type} `{EqDecision V} `{DefaultConstructible V}.
Implicit Types (d : Dictionary.t K V) (k : K) (v : V).

(** ** Lookups *)

(** X1: [get] and [contains] agree on every key: [get] has a value exactly
    when [contains] is true, and is [std::nullopt] exactly when it is
    false. *)
Theorem get_agrees_with_contains k d :
  (Dictionary.contains k d = true ↔ ∃ v, Dictionary.get k d = Some v)
  ∧ (Dictionary.contains k d = false ↔ Dictionary.get k d = None).
Proof.
  rewrite contains_true, contains_false, get_lookup. split; [|done].
  split; intros [v Hv]; by exists v.
Qed.

(** ** keys and values *)

(** X2: [keys()] lists every contained key, and lists it once. *)
Theorem keys_exactly_the_contained d :
  NoDup (Dictionary.keys d)
  ∧ ∀ k, k ∈ Dictionary.keys d ↔ Dictionary.contains k d = true.
Proof.
  rewrite keys_iter. split; [apply NoDup_fst_map_to_list|].
  intros k. rewrite contains_true, list_elem_of_fmap. split.
  - intros [[k' w] [-> Hkw%elem_of_map_to_list]]. eauto.
  - intros [w Hw]. exists (k, w). by rewrite elem_of_map_to_list.
Qed.


(** X4: a dictionary is empty exactly when it contains no key, and then
    [keys()] and [values()] are empty too. *)
Theorem empty_iff_nothing_contained d :
  (Dictionary.empty d = true ↔ ∀ k, Dictionary.contains k d = false)
  ∧ (Dictionary.empty d = true ↔ Dictionary.keys d = [])
  ∧ (Dictionary.empty d = true ↔ Dictionary.values d = []).
Proof.
  assert (Dictionary.empty d = true ↔ Dictionary.data d = ∅) as Hempty.
  { rewrite empty_size. apply map_size_empty_iff. }
  rewrite keys_iter, values_iter, Hempty. split_and!.
  - rewrite map_empty. by setoid_rewrite contains_false.
  - rewrite <-map_to_list_empty_iff.
    split; [by intros -> | apply fmap_nil_inv].
  - rewrite <-map_to_list_empty_iff.
    split; [by intros -> | apply fmap_nil_inv].
Qed.

(** ** insert and remove together *)

(** X5: removing a key just inserted into a dictionary that did not contain
    it returns [true] and gives the dictionary back. *)
Theorem remove_after_insert k v d :
  Dictionary.contains k d = false →
  Dictionary.remove k (Dictionary.insert k v d) = (true, d).
Proof.
  intros Hk%contains_false.
  rewrite (surjective_pairing (Dictionary.remove _ _)). f_equal.
  - rewrite remove_returns. apply contains_true.
    rewrite data_insert, lookup_insert_eq. eauto.
  - apply data_inj.
    by rewrite data_remove, data_insert, delete_insert_eq, delete_id.
Qed.

(** X6: inserting again what [remove] took out restores the dictionary. *)
Theorem insert_after_remove k v d :
  Dictionary.get k d = Some v →
  Dictionary.insert k v (Dictionary.remove k d).2 = d.
Proof.
  rewrite get_lookup. intros Hk. apply data_inj.
  by rewrite data_insert, data_remove, insert_delete_eq, insert_id.
Qed.

(** X7: of two [insert]s on one key only the later one shows; an [insert]
    of the value already stored changes nothing; [insert]s on different
    keys can be swapped. *)
Theorem insert_overwrites k v w d :
  Dictionary.insert k v (Dictionary.insert k w d) = Dictionary.insert k v d
  ∧ (Dictionary.get k d = Some v → Dictionary.insert k v d = d)
  ∧ (∀ k' v', k ≠ k' →
       Dictionary.insert k v (Dictionary.insert k' v' d) =
         Dictionary.insert k' v' (Dictionary.insert k v d)).
Proof.
  split_and!.
  - apply data_inj. by rewrite !data_insert, insert_insert_eq.
  - rewrite get_lookup. intros Hk. apply data_inj.
    by rewrite data_insert, insert_id.
  - intros k' v' Hne. apply data_inj.
    rewrite !data_insert. by apply insert_insert_ne.
Qed.

(** X8: a second [remove] of the same key returns [false] and changes
    nothing, and [remove]s of two keys give the same dictionary in either
    order. *)
Theorem remove_twice k k' d :
  Dictionary.remove k (Dictionary.remove k d).2 =
    (false, (Dictionary.remove k d).2)
  ∧ (Dictionary.remove k (Dictionary.remove k' d).2).2 =
      (Dictionary.remove k' (Dictionary.remove k d).2).2.
Proof.
  split.
  - rewrite (surjective_pairing (Dictionary.remove k _)). f_equal.
    + rewrite remove_returns. apply contains_false.
      by rewrite data_remove, lookup_delete_eq.
    + apply data_inj. by rewrite !data_remove, delete_delete_eq.
  - apply data_inj. rewrite !data_remove. apply delete_delete.
Qed.

(** ** Mutable subscript on a present key *)

(** X9: on a key that is present the mutable subscript changes nothing: it
    returns the reference bound to the key, through which the stored value
    is read, and the dictionary is the same. *)
Theorem subscript_present_key k v d :
  Dictionary.get k d = Some v →
  Dictionary.operator_subscript k d = (UmRef k, d)
  ∧ Dictionary.load (UmRef k) d = Some v.
Proof.
  rewrite get_lookup. intros Hk. split.
  - rewrite (surjective_pairing (Dictionary.operator_subscript k d)).
    f_equal; [apply operator_subscript_slot|].
    apply data_inj. by rewrite data_operator_subscript, Hk.
  - done.
Qed.

(** ** The constructor and a loop of inserts *)

Lemma first_binding_app k (l1 l2 : list (K * V)) :
  first_binding k (l1 ++ l2) =
    match first_binding k l1 with
    | Some w => Some w
    | None => first_binding k l2
    end.
Proof.
  induction l1 as [|[k0 v0] l1 IH]; simpl; [done|].
  by destruct (decide (k0 = k)).
Qed.

Lemma first_binding_elem k v (init : list (K * V)) :
  first_binding k init = Some v → (k, v) ∈ init.
Proof.
  induction init as [|[k0 v0] init IH]; simpl; [done|].
  destruct (decide (k0 = k)) as [->|Hne].
  - intros [= ->]. apply list_elem_of_here.
  - intros Hrest. by apply list_elem_of_further, IH.
Qed.

Lemma first_binding_distinct k v (init : list (K * V)) :
  NoDup init.*1 → (k, v) ∈ init → first_binding k init = Some v.
Proof.
  induction init as [|[k0 v0] init IH]; simpl.
  - by intros _ ?%elem_of_nil.
  - intros [Hfresh Hrest]%NoDup_cons [[= -> ->]|Hin]%elem_of_cons.
    + by rewrite decide_True.
    + rewrite decide_False; [by apply IH|].
      intros ->. apply Hfresh, list_elem_of_fmap. by exists (k, v).
Qed.

(** With distinct keys the order of the pairs does not matter. *)
Lemma first_binding_permutation k (init init' : list (K * V)) :
  NoDup init.*1 → init ≡ₚ init' →
  first_binding k init = first_binding k init'.
Proof.
  intros Hdistinct Hperm.
  assert (NoDup init'.*1) as Hdistinct' by by rewrite <-Hperm.
  apply option_eq. intros v. split; intros Hv%first_binding_elem.
  - apply first_binding_distinct; [done|]. by rewrite <-Hperm.
  - apply first_binding_distinct; [done|]. by rewrite Hperm.
Qed.

Lemma insert_each_lookup (init : list (K * V)) d k :
  Dictionary.data
    (foldl (λ d p, Dictionary.insert p.1 p.2 d) d init) !! k =
    match last_binding k init with
    | Some w => Some w
    | None => Dictionary.data d !! k
    end.
Proof.
  unfold last_binding. revert d.
  induction init as [|[k0 v0] init IH]; intros d; simpl; [done|].
  rewrite IH, reverse_cons, first_binding_app; simpl.
  destruct (first_binding k (reverse init)); [done|].
  rewrite data_insert. destruct (decide (k0 = k)) as [->|Hne].
  - by rewrite lookup_insert_eq.
  - by rewrite lookup_insert_ne.
Qed.

(** X10: the constructor gives what inserting the pairs one by one, from
    the last to the first, into an empty dictionary gives. *)
Theorem construct_inserts_last_to_first (init : list (K * V)) :
  Dictionary.construct init =
    foldr (λ p d, Dictionary.insert p.1 p.2 d)
          Dictionary.default_construct init.
Proof.
  apply data_inj, map_eq. intros k.
  simpl. unfold um_construct. rewrite um_insert_all_lookup, lookup_empty.
  induction init as [|[k0 v0] init IH]; simpl; [done|].
  rewrite data_insert. destruct (decide (k0 = k)) as [->|Hne].
  - by rewrite lookup_insert_eq.
  - by rewrite lookup_insert_ne.
Qed.

(** X11: a loop of [insert]s over a sequence of pairs, first to last, is
    last-write-wins: a key of the sequence maps to the value of its last
    pair, any other key keeps what it had. *)
Theorem insert_loop_last_pair_wins (init : list (K * V)) d k :
  Dictionary.get k (foldl (λ d p, Dictionary.insert p.1 p.2 d) d init) =
    match last_binding k init with
    | Some w => Some w
    | None => Dictionary.get k d
    end.
Proof. rewrite !get_lookup. apply insert_each_lookup. Qed.

(** X12: when the keys of the sequence are distinct, the constructor agrees
    with the loop of [insert]s, every key maps to the value of its last (and
    only) pair, the size is the length of the sequence, and the order of
    the pairs is immaterial. *)
Theorem construct_distinct_keys (init : list (K * V)) :
  NoDup init.*1 →
  Dictionary.construct init =
    foldl (λ d p, Dictionary.insert p.1 p.2 d)
          Dictionary.default_construct init
  ∧ (∀ k, Dictionary.get k (Dictionary.construct init) =
            last_binding k init)
  ∧ Dictionary.size (Dictionary.construct init) = length init
  ∧ (∀ init', init ≡ₚ init' →
       Dictionary.construct init' = Dictionary.construct init).
Proof.
  intros Hdistinct.
  assert (∀ (l : list (K * V)) k,
            Dictionary.data (Dictionary.construct l) !! k =
              first_binding k l) as Hfirst.
  { intros l k. simpl. unfold um_construct.
    by rewrite um_insert_all_lookup, lookup_empty. }
  assert (∀ k, first_binding k init = last_binding k init) as Hlast.
  { intros k. apply first_binding_permutation; [done|].
    by rewrite reverse_Permutation. }
  split_and!.
  - apply data_inj, map_eq. intros k.
    rewrite Hfirst, insert_each_lookup, Hlast; simpl.
    rewrite lookup_empty. by destruct (last_binding k init).
  - intros k. by rewrite get_lookup, Hfirst.
  - unfold Dictionary.size, um_size; simpl.
    rewrite <-size_dom, um_construct_dom, size_list_to_set by done.
    apply length_fmap.
  - intros init' Hperm. apply data_inj, map_eq. intros k.
    rewrite !Hfirst. symmetry. by apply first_binding_permutation.
Qed.

(** ** Failure, once more *)


(** ** Equality, once more *)

(** Two different tables are told apart by some key. *)
Lemma tables_differ_at_a_key (a b : gmap K V) :
  a ≠ b → ∃ k, a !! k ≠ b !! k.
Proof.
  intros Hne.
  destruct (decide (Exists (λ k, a !! k ≠ b !! k)
                           (elements (dom a ∪ dom b)))) as [Hex|Hall].
  - apply Exists_exists in Hex as (k & _ & Hk). by exists k.
  - destruct Hne. apply map_eq. intros k.
    destruct (decide (k ∈ dom a ∪ dom b)) as [Hin|Hout].
    + destruct (decide (a !! k = b !! k)) as [|Hk]; [done|].
      destruct Hall. apply Exists_exists. exists k.
      by rewrite elem_of_elements.
    + apply not_elem_of_union in Hout as [Ha Hb].
      apply not_elem_of_dom in Ha, Hb. by rewrite Ha, Hb.
Qed.

(** X14: equality is transitive, and [!=] holds exactly when some key
    tells the two dictionaries apart: [get] on it gives different
    results. *)
Theorem equality_transitive_and_ne (d1 d2 d3 : Dictionary.t K V) :
  (Dictionary.operator_eq d1 d2 = true →
   Dictionary.operator_eq d2 d3 = true →
   Dictionary.operator_eq d1 d3 = true)
  ∧ (Dictionary.operator_ne d1 d2 = true ↔
       ∃ k, Dictionary.get k d1 ≠ Dictionary.get k d2).
Proof.
  split.
  - rewrite !operator_eq_leibniz. congruence.
  - unfold Dictionary.operator_ne. rewrite negb_true_iff.
    setoid_rewrite get_lookup. split.
    + intros Hneq. apply tables_differ_at_a_key. intros Hdata.
      apply data_inj, operator_eq_leibniz in Hdata. congruence.
    + intros [k Hk].
      destruct (Dictionary.operator_eq d1 d2) eqn:Heq; [|done].
      apply operator_eq_leibniz in Heq. by subst.
Qed.

(** ** Histories, once more *)

(** X15: whatever the constructor and the calls, a dictionary only contains
    keys that were inserted at some time, and its size is at most the
    number of distinct keys ever inserted. *)
Theorem contained_keys_were_inserted
    (c : constructor K V) (calls : list (method K V)) :
  let '(d, l) := history c calls in
  (∀ k, Dictionary.contains k d = true → k ∈ ever_inserted l)
  ∧ Dictionary.size d ≤ size (ever_inserted l).
Proof.
  pose proof (balanced_history c calls) as [Hdom _].
  destruct (history c calls) as [d l]; simpl in *. split.
  - intros k Hk%contains_true%elem_of_dom. by apply Hdom.
  - rewrite size_dom_data. by apply subseteq_size.
Qed.

(** ** Assignment through the subscript, and clear *)

(** X16: the statement [dict[key] = value;] does what
    [insert(key, value)] does. *)
Theorem subscript_assign_is_insert k v d :
  (invoke (Subscript_assign k v) d).2 = Dictionary.insert k v d
  ∧ Dictionary.get k (invoke (Subscript_assign k v) d).2 = Some v.
Proof.
  assert ((invoke (Subscript_assign k v) d).2 = Dictionary.insert k v d)
    as Hsame.
  { simpl. unfold Dictionary.operator_subscript, Dictionary.insert,
      Dictionary.store.
    by destruct (um_subscript k (Dictionary.data d)). }
  split; [done|].
  by rewrite Hsame, get_lookup, data_insert, lookup_insert_eq.
Qed.

(** X17: after [clear()] the dictionary compares equal to a
    default-constructed one, [remove] returns [false] for every key and the
    read-only subscript throws for every key. *)
Theorem clear_gives_fresh_dictionary k d :
  Dictionary.operator_eq (Dictionary.clear d) Dictionary.default_construct
    = true
  ∧ (Dictionary.remove k (Dictionary.clear d)).1 = false
  ∧ Dictionary.operator_subscript_const k (Dictionary.clear d) =
      Throws (out_of_range "Key not found in dictionary").
Proof.
  split_and!.
  - by apply operator_eq_leibniz.
  - rewrite remove_returns. apply contains_false. apply lookup_empty.
  - unfold Dictionary.operator_subscript_const, um_find; simpl.
    unfold um_clear. by rewrite lookup_empty.
Qed.
End more_properties.

(** * The further properties on the objects of the test suite *)

Section more_examples.
Local Notation dict := (Dictionary.t string Z).
Local Notation empty_dict := (Dictionary.default_construct : dict).
Local Notation abc :=
  (Dictionary.construct [("a", 1%Z); ("b", 2%Z); ("c", 3%Z)] : dict).


Lemma remove_after_insert_witness :
  Dictionary.contains "d" abc = false
  ∧ Dictionary.remove "d" (Dictionary.insert "d" 4%Z abc) = (true, abc).
Proof.
  split; [reflexivity|]. by apply remove_after_insert.
Defined.

Lemma insert_after_remove_witness :
  Dictionary.get "b" abc = Some 2%Z
  ∧ Dictionary.insert "b" 2%Z (Dictionary.remove "b" abc).2 = abc.
Proof.
  split; [reflexivity|]. by apply insert_after_remove.
Defined.

Lemma insert_overwrites_witness :
  Dictionary.get "b" abc = Some 2%Z
  ∧ Dictionary.insert "b" 2%Z abc = abc
  ∧ "b" ≠ "z"
  ∧ Dictionary.insert "b" 2%Z (Dictionary.insert "z" 0%Z abc) =
      Dictionary.insert "z" 0%Z (Dictionary.insert "b" 2%Z abc).
Proof.
  assert ("b" ≠ "z") as Hne by (intros [=]).
  destruct (insert_overwrites "b" 2%Z 5%Z abc) as (_ & Hsame & Hswap).
  split_and!; [reflexivity | by apply Hsame | exact Hne
               | exact (Hswap "z" 0%Z Hne)].
Defined.

Lemma subscript_present_key_witness :
  Dictionary.get "a" abc = Some 1%Z
  ∧ Dictionary.operator_subscript "a" abc = (UmRef "a", abc)
  ∧ Dictionary.load (UmRef "a") abc = Some 1%Z.
Proof.
  split; [reflexivity|]. by apply subscript_present_key.
Defined.

Lemma construct_distinct_keys_witness :
  NoDup [("a", 1%Z); ("b", 2%Z); ("c", 3%Z)].*1
  ∧ Dictionary.size abc = 3
  ∧ [("a", 1%Z); ("b", 2%Z); ("c", 3%Z)]
      ≡ₚ [("c", 3%Z); ("a", 1%Z); ("b", 2%Z)]
  ∧ Dictionary.construct [("c", 3%Z); ("a", 1%Z); ("b", 2%Z)] = abc.
Proof.
  assert (NoDup [("a", 1%Z); ("b", 2%Z); ("c", 3%Z)].*1) as Hdistinct.
  { simpl. repeat apply NoDup_cons_2; rewrite ?elem_of_cons, ?elem_of_nil;
      [naive_solver.. | apply NoDup_nil_2]. }
  assert ([("a", 1%Z); ("b", 2%Z); ("c", 3%Z)]
            ≡ₚ [("c", 3%Z); ("a", 1%Z); ("b", 2%Z)]) as Hperm.
  { change ([("a", 1%Z); ("b", 2%Z)] ++ [("c", 3%Z)]
              ≡ₚ [("c", 3%Z)] ++ [("a", 1%Z); ("b", 2%Z)]).
    apply Permutation_app_comm. }
  destruct (construct_distinct_keys _ Hdistinct) as (_ & _ & Hsize & Horder).
  split_and!; [exact Hdistinct | exact Hsize | exact Hperm
               | exact (Horder _ Hperm)].
Defined.


(** "Dictionary - 相等性比较": [dict1 != dict3]. *)
Lemma equality_transitive_and_ne_witness :
  let d1 : dict := Dictionary.construct [("a", 1%Z); ("b", 2%Z)] in
  let d2 : dict :=
    Dictionary.insert "b" 2%Z (Dictionary.insert "a" 1%Z empty_dict) in
  let d3 : dict :=
    Dictionary.insert "a" 1%Z (Dictionary.insert "b" 2%Z empty_dict) in
  Dictionary.operator_eq d1 d2 = true
  ∧ Dictionary.operator_eq d2 d3 = true
  ∧ Dictionary.operator_eq d1 d3 = true.
Proof.
  intros d1 d2 d3.
  assert (Dictionary.operator_eq d1 d2 = true) as H12 by by vm_compute.
  assert (Dictionary.operator_eq d2 d3 = true) as H23 by by vm_compute.
  split_and!; [exact H12 | exact H23|].
  exact (proj1 (equality_transitive_and_ne d1 d2 d3) H12 H23).
Defined.

Lemma contained_keys_were_inserted_witness :
  let h :=
    history (Init_list_ctor [("a", 1%Z)] : constructor string Z)
            [Subscript "b"; Remove "a"; Clear; Insert "c" 3%Z] in
  Dictionary.contains "c" h.1 = true ∧ "c" ∈ ever_inserted h.2.
Proof.
  intros h.
  pose proof
    (contained_keys_were_inserted
       (Init_list_ctor [("a", 1%Z)] : constructor string Z)
       [Subscript "b"; Remove "a"; Clear; Insert "c" 3%Z]) as Hkeys.
  fold h in Hkeys. rewrite (surjective_pairing h) in Hkeys.
  assert (Dictionary.contains "c" h.1 = true) as Hc by by vm_compute.
  split; [exact Hc|]. exact (proj1 Hkeys "c" Hc).
Defined.
End more_examples.
